(** * Document question answering app (streamlit_app.py)

    A shallow embedding of the Streamlit script: the script is re-executed
    from its first line on every user action, reads the secrets store, the
    file-upload widget and the question widget, and talks to the remote
    chat-completion service.  One execution is modelled as a computation
    that logs, in order, every effect the script performs (elements drawn,
    client construction, completion requests) and every fragment of the
    answer that reaches it, and ends normally, with an unhandled exception,
    or stopped by [st.stop()]. *)

From Stdlib Require Import NArith ZArith List String Ascii Bool Lia.
From Stdlib.Strings Require Import Byte.
From Stdlib Require Import DecimalString.
From stdpp Require Import base option list strings gmap.

Local Open Scope N_scope.

(** ** Python values *)

Module Py.

(** A Python [str] is a sequence of Unicode code points. *)
Abbreviation str := (list N).

(** The code points of a string literal of the source.  The only escape
    sequence the script's literals use is backslash-n. *)
Fixpoint lit (s : string) : str :=
  match s with
  | EmptyString => []
  | String "\" (String "n" s') => 10 :: lit s'
  | String c s' => N_of_ascii c :: lit s'
  end.

(** [bytes] objects. *)
Abbreviation bytes := (list byte).

(** The values a secrets file can bind a key to, as far as the script
    inspects them: it only tests the value for truth. *)
Inductive value :=
| VStr (s : str)
| VInt (z : Z)
| VBool (b : bool).

(** Python truth value testing. *)
Definition truthy (v : value) : bool :=
  match v with
  | VStr s => negb (bool_decide (s = []))
  | VInt z => negb (z =? 0)%Z
  | VBool b => b
  end.

(** Truth of a [str]: empty strings are false. *)
Definition str_truthy (s : str) : bool :=
  match s with [] => false | _ :: _ => true end.

(** The exceptions that the library calls of the script raise.  All of them
    derive from [Exception]. *)
Inductive exn :=
| KeyError (key : str)
| FileNotFoundError (message : str)
| UnicodeDecodeError (object : bytes) (start stop : nat) (reason : str)
| AttributeError (message : str)
| APIError (message : str).

Inductive exn_class :=
| CKeyError | CFileNotFoundError | CUnicodeDecodeError | CAttributeError | CAPIError.

#[export] Instance exn_class_eq_dec : EqDecision exn_class.
Proof. solve_decision. Defined.

Definition class_of (e : exn) : exn_class :=
  match e with
  | KeyError _ => CKeyError
  | FileNotFoundError _ => CFileNotFoundError
  | UnicodeDecodeError _ _ _ _ => CUnicodeDecodeError
  | AttributeError _ => CAttributeError
  | APIError _ => CAPIError
  end.

Definition dec_str (n : nat) : str :=
  lit (DecimalString.NilEmpty.string_of_uint (Nat.to_uint n)).

(** [%02x] of a byte. *)
Definition hex_digit (d : N) : N :=
  if d <? 10 then 48 + d else 87 + d.

Definition hex02 (b : byte) : str :=
  let n := Byte.to_N b in [hex_digit (n / 16); hex_digit (n mod 16)].

(** [str(e)], the text that an f-string inserts for [{e}]. *)
Definition str_exn (e : exn) : str :=
  match e with
  | KeyError key => lit "'" ++ key ++ lit "'"
  | FileNotFoundError m => m
  | UnicodeDecodeError object start stop reason =>
      match object !! start with
      | Some b =>
          if bool_decide (stop = S start) then
            lit "'utf-8' codec can't decode byte 0x" ++ hex02 b
              ++ lit " in position " ++ dec_str start ++ lit ": " ++ reason
          else
            lit "'utf-8' codec can't decode bytes in position " ++ dec_str start
              ++ lit "-" ++ dec_str (stop - 1) ++ lit ": " ++ reason
      | None =>
          lit "'utf-8' codec can't decode bytes in position " ++ dec_str start
            ++ lit "-" ++ dec_str (stop - 1) ++ lit ": " ++ reason
      end
  | AttributeError m => m
  | APIError m => m
  end.

(** *** [bytes.decode()]: strict UTF-8 *)

Definition is_continuation (b : N) : bool := (128 <=? b) && (b <? 192).

Definition cons_ok (c : N) (r : exn + str) : exn + str :=
  match r with
  | inl e => inl e
  | inr s => inr (c :: s)
  end.

Section Utf8.
(** The whole object being decoded, reported in the exception. *)
Variable object : bytes.

Definition invalid_start (pos : nat) : exn + str :=
  inl (UnicodeDecodeError object pos (pos + 1) (lit "invalid start byte")).
Definition invalid_continuation (pos len : nat) : exn + str :=
  inl (UnicodeDecodeError object pos (pos + len) (lit "invalid continuation byte")).
Definition unexpected_end (pos : nat) : exn + str :=
  inl (UnicodeDecodeError object pos (length object) (lit "unexpected end of data")).

(** Decoding of the bytes [s] that start at offset [pos] of [object]. *)
Fixpoint utf8_decode (pos : nat) (s : list N) : exn + str :=
  match s with
  | [] => inr []
  | ch :: s1 =>
      if ch <? 128 then cons_ok ch (utf8_decode (pos + 1) s1)
      else if ch <? 194 then invalid_start pos
      else if ch <? 224 then
        match s1 with
        | [] => unexpected_end pos
        | ch2 :: s2 =>
            if negb (is_continuation ch2) then invalid_continuation pos 1
            else cons_ok ((ch - 192) * 64 + (ch2 - 128))
                   (utf8_decode (pos + 2) s2)
        end
      else if ch <? 240 then
        match s1 with
        | [] => unexpected_end pos
        | ch2 :: s2 =>
            if negb (is_continuation ch2)
               || (if ch2 <? 160 then ch =? 224 else ch =? 237)
            then invalid_continuation pos 1
            else
              match s2 with
              | [] => unexpected_end pos
              | ch3 :: s3 =>
                  if negb (is_continuation ch3) then invalid_continuation pos 2
                  else cons_ok ((ch - 224) * 4096 + (ch2 - 128) * 64 + (ch3 - 128))
                         (utf8_decode (pos + 3) s3)
              end
        end
      else if ch <? 245 then
        match s1 with
        | [] => unexpected_end pos
        | ch2 :: s2 =>
            if negb (is_continuation ch2)
               || (if ch2 <? 144 then ch =? 240 else ch =? 244)
            then invalid_continuation pos 1
            else
              match s2 with
              | [] => unexpected_end pos
              | ch3 :: s3 =>
                  if negb (is_continuation ch3) then invalid_continuation pos 2
                  else
                    match s3 with
                    | [] => unexpected_end pos
                    | ch4 :: s4 =>
                        if negb (is_continuation ch4) then invalid_continuation pos 3
                        else cons_ok ((ch - 240) * 262144 + (ch2 - 128) * 4096
                                      + (ch3 - 128) * 64 + (ch4 - 128))
                               (utf8_decode (pos + 4) s4)
                    end
              end
        end
      else invalid_start pos
  end.
End Utf8.

(** [b.decode()] with the default encoding and error handler. *)
Definition decode (b : bytes) : exn + str :=
  utf8_decode b 0 (map Byte.to_N b).

End Py.

Local Close Scope N_scope.

(** ** The Streamlit page, the remote service and the script's effects *)

Module St.
Import Py.

(** An uploaded file is a [BytesIO]: [read()] returns the bytes after the
    current position.  The object has neither [__bool__] nor [__len__], so
    it is always true; the widget yields [None] while nothing is uploaded. *)
Record UploadedFile := { data : bytes; position : nat }.

Definition read (f : UploadedFile) : bytes := drop (position f) (data f).

(** [uploaded_file.read()] on what the widget returned. *)
Definition read_upload (f : option UploadedFile) : exn + bytes :=
  match f with
  | Some file => inr (read file)
  | None => inl (AttributeError (lit "'NoneType' object has no attribute 'read'"))
  end.

Definition file_truthy (f : option UploadedFile) : bool :=
  match f with Some _ => true | None => false end.

(** Elements of the page. *)
Inductive element :=
| Title (body : str)
| Markdown (body : str)
| ErrorBox (body icon : str)
| InfoBox (body icon : str)
| FileUploader (label : str) (type : list str)
| TextArea (label placeholder : str) (disabled : bool) (height : Z)
| Output (text : str).

(** One role/content message of a chat-completion request. *)
Record message := { role : str; content : str }.

Record request := {
  api_key : value;
  model : str;
  request_messages : list message;
  stream_flag : bool
}.

(** What the remote service delivers for a streamed request: fragments in
    arrival order, then either the end of the stream or a failure. *)
Record stream := { fragments : list str; failure : option exn }.

Inductive response :=
| CreateFails (e : exn)
| Streams (s : stream).

(** What happens during one execution, in order: the effects the script
    performs and the fragments it receives.  [RequestSent] is one call of
    [create]; what the client library does inside the call (it may repeat an
    attempt that the service refuses) is not part of the log.  [Arrived] is
    the stream yielding its next fragment to the consumer, [Fragment] the
    appending of a fragment to the output region. *)
Inductive event :=
| Draw (el : element)
| SpinnerOn (text : str)
| SpinnerOff
| Fragment (text : str)
| ClientCreated (key : value)
| RequestSent (r : request)
| Arrived (text : str).

(** How an execution of the script ends.  [st.stop()] unwinds the script
    with a control signal that is not an [Exception]. *)
Inductive outcome (A : Type) :=
| Returned (a : A)
| Raised (e : exn)
| Stopped.
Arguments Returned {A} a.
Arguments Raised {A} e.
Arguments Stopped {A}.

Definition run (A : Type) : Type := list event * outcome A.

#[export] Instance run_ret : MRet run := fun A a => ([], Returned a).

#[export] Instance run_bind : MBind run := fun A B k m =>
  match m with
  | (t, Returned a) => let '(t', r) := k a in (t ++ t', r)
  | (t, Raised e) => (t, Raised e)
  | (t, Stopped) => (t, Stopped)
  end.

Definition emit (ev : event) : run unit := ([ev], Returned tt).

Definition raise {A} (e : exn) : run A := ([], Raised e).

(** The result of a pure call that may raise. *)
Definition lift {A} (r : exn + A) : run A :=
  match r with
  | inl e => raise e
  | inr a => mret a
  end.

(** [try: body except <classes>: handler]. *)
Definition try_except {A} (body : run A) (classes : list exn_class)
    (handler : exn -> run A) : run A :=
  match body with
  | (t, Raised e) =>
      if bool_decide (class_of e ∈ classes)
      then let '(t', r) := handler e in (t ++ t', r)
      else (t, Raised e)
  | finished => finished
  end.

(** [except Exception]: every class of [exn] derives from [Exception]. *)
Definition Exception : list exn_class :=
  [CKeyError; CFileNotFoundError; CUnicodeDecodeError; CAttributeError; CAPIError].

(** What one execution of the script reads from its surroundings. *)
Inductive secrets_store :=
| NoSecretsFile (message : str)
| SecretsFile (entries : gmap str value).

Record env := {
  secrets : secrets_store;
  uploaded : option UploadedFile;
  question_text : str;
  service : request -> response
}.

Section Calls.
Variable e : env.

Definition title (body : str) : run unit := emit (Draw (Title body)).
Definition write (body : str) : run unit := emit (Draw (Markdown body)).
Definition error (body icon : str) : run unit := emit (Draw (ErrorBox body icon)).
Definition info (body icon : str) : run unit := emit (Draw (InfoBox body icon)).
Definition stop {A} : run A := ([], Stopped).

(** [st.secrets[key]]. *)
Definition secrets_get (key : str) : run value :=
  match secrets e with
  | NoSecretsFile m => raise (FileNotFoundError m)
  | SecretsFile entries =>
      match entries !! key with
      | Some v => mret v
      | None => raise (KeyError key)
      end
  end.

Definition file_uploader (label : str) (type : list str) : run (option UploadedFile) :=
  emit (Draw (FileUploader label type));; mret (uploaded e).

Definition text_area (label placeholder : str) (disabled : bool) (height : Z) : run str :=
  emit (Draw (TextArea label placeholder disabled height));; mret (question_text e).

(** [with st.spinner(text): body]: the spinner is taken down when the
    block is left, also by an exception. *)
Definition spinner {A} (text : str) (body : run A) : run A :=
  let '(t, r) := body in (SpinnerOn text :: t ++ [SpinnerOff], r).

(** [OpenAI(api_key=key)]. *)
Definition OpenAI (key : value) : run value :=
  emit (ClientCreated key);; mret key.

(** [client.chat.completions.create(model=, messages=, stream=)].  The log
    records the call; the answer of the service stands for the outcome of
    the whole call, after whatever attempts the client library makes. *)
Definition chat_completions_create (client : value) (model : str)
    (messages : list message) (stream_flag : bool) : run stream :=
  let r := {| api_key := client; model := model;
              request_messages := messages; stream_flag := stream_flag |} in
  emit (RequestSent r);;
  match service e r with
  | CreateFails ex => raise ex
  | Streams s => mret s
  end.
End Calls.

(** Modelled from the spec: [st.write_stream] is Streamlit's code and is not
    part of the repository.  The stream is lazy: the consumer asks it for the
    next fragment and waits until that fragment arrives.  Following section
    4.3 of the specification, each fragment is appended to the visible output
    as it arrives, before the next one is asked for, until the stream closes;
    a failure of the stream is raised to the caller at the point where it
    occurs.  The call returns the full text. *)
Fixpoint write_fragments (shown : str) (fs : list str) (failure : option exn) : run str :=
  match fs with
  | [] => match failure with
          | None => mret shown
          | Some ex => raise ex
          end
  | f :: fs' =>
      emit (Arrived f);;
      emit (Fragment f);;
      write_fragments (shown ++ f) fs' failure
  end.

Definition write_stream (s : stream) : run str :=
  write_fragments [] (fragments s) (failure s).

(** *** The page that a log of effects leaves on the display *)

(** The elements of the page, newest first.  A fragment extends the output
    region, which is opened by the first fragment. *)
Definition paint (page : list element) (ev : event) : list element :=
  match ev with
  | Draw el => el :: page
  | Fragment f =>
      match page with
      | Output s :: below => Output (s ++ f) :: below
      | _ => Output f :: page
      end
  | _ => page
  end.

(** The page in display order. *)
Definition screen_of (t : list event) : list element :=
  rev (fold_left paint t []).

(** The progress indicator, shown apart from the page's elements. *)
Definition spinner_step (s : option str) (ev : event) : option str :=
  match ev with
  | SpinnerOn text => Some text
  | SpinnerOff => None
  | _ => s
  end.

Definition spinner_of (t : list event) : option str :=
  fold_left spinner_step t None.

(** The text of the output region. *)
Definition rendered (page : list element) : str :=
  flat_map (fun el => match el with Output s => s | _ => [] end) page.

Definition requests_of (t : list event) : list request :=
  flat_map (fun ev => match ev with RequestSent r => [r] | _ => [] end) t.

Definition clients_of (t : list event) : list value :=
  flat_map (fun ev => match ev with ClientCreated k => [k] | _ => [] end) t.

Definition errors_of (page : list element) : list (str * str) :=
  flat_map (fun el => match el with ErrorBox b i => [(b, i)] | _ => [] end) page.

Definition is_input (el : element) : bool :=
  match el with
  | FileUploader _ _ | TextArea _ _ _ _ => true
  | _ => false
  end.

End St.

(** ** streamlit_app.py *)

Import Py St.

(** The emoji of the source, as code points. *)
Definition page_facing_up : str := [0x1F4C4%N].
Definition rotating_light : str := [0x1F6A8%N].
Definition old_key : str := [0x1F5DD%N; 0xFE0F%N].

(** Lines 58-65: the list of messages built from the document and the
    question. *)
Definition messages (document question : str) : list message :=
  [ {| role := lit "user";
       content :=
         lit "You are an expert at answering questions based on a provided document.\n\n"
         ++ (lit "Here is the document:\n\n---\n\n" ++ document ++ lit "\n\n---\n\n")
         ++ (lit "Based on the document, please answer the following question: "
             ++ question) |} ].

(** Lines 53-77: the body of the [try] statement. *)
Definition answer (e : env) (client : value) (uploaded_file : option UploadedFile)
    (question : str) : run unit :=
  raw ← lift (read_upload uploaded_file);
  document ← lift (decode raw);
  spinner (lit "Generating answer...")
    (stream ← chat_completions_create e client (lit "gpt-3.5-turbo")
                (messages document question) true;
     _ ← write_stream stream;
     mret tt).

(** Lines 6-80: one execution of the script. *)
Definition streamlit_app (e : env) : run unit :=
  title (page_facing_up ++ lit " Document Question Answering");;
  write (lit "Upload a document (.txt or .md) and ask a question. The app will use an AI model to find the answer within the document."
         ++ lit " You'll need an OpenAI API key to use this app. You can get one from the [OpenAI Platform](https://platform.openai.com/account/api-keys).");;
  openai_api_key ←
    try_except (secrets_get e (lit "API_KEY"))
      [CKeyError; CFileNotFoundError]
      (fun _ =>
         error (lit "ERROR: OpenAI API key not found. Please add it to your secrets file.")
           rotating_light;;
         stop);
  if negb (truthy openai_api_key) then
    info (lit "Please add your OpenAI API key to your secrets file to continue.") old_key
  else
    client ← OpenAI openai_api_key;
    uploaded_file ← file_uploader e (lit "Upload your document") [lit "txt"; lit "md"];
    question ←
      text_area e (lit "Ask a question about the document")
        (lit "e.g., Can you give me a short summary of the document?")
        (negb (file_truthy uploaded_file)) 100;
    if file_truthy uploaded_file && str_truthy question then
      try_except (answer e client uploaded_file question) Exception
        (fun ex => error (lit "An error occurred: " ++ str_exn ex) rotating_light)
    else mret tt.

(** The page that one execution leaves on the display, and the requests it
    sends. *)
Definition page (e : env) : list element := screen_of (fst (streamlit_app e)).
Definition sent (e : env) : list request := requests_of (fst (streamlit_app e)).

(** A session is a sequence of executions, one per user action; nothing but
    the surroundings of each execution enters it. *)
Definition session_sent (es : list env) : list request := flat_map sent es.

(** The document of a submission: the decoded content of the uploaded file. *)
Definition document_of (e : env) : option str :=
  match uploaded e with
  | Some f => match decode (read f) with
              | inr d => Some d
              | inl _ => None
              end
  | None => None
  end.

(** The credential that [st.secrets["API_KEY"]] yields, if any. *)
Definition credential (e : env) : option value :=
  match secrets e with
  | NoSecretsFile _ => None
  | SecretsFile entries => entries !! lit "API_KEY"
  end.

(** *** The fixed parts of an execution's log *)

(** Lines 6-10: title and description. *)
Definition heading : list event :=
  [ Draw (Title (page_facing_up ++ lit " Document Question Answering"));
    Draw (Markdown (lit "Upload a document (.txt or .md) and ask a question. The app will use an AI model to find the answer within the document. You'll need an OpenAI API key to use this app. You can get one from the [OpenAI Platform](https://platform.openai.com/account/api-keys).")) ].

(** Lines 18-19: the configuration error. *)
Definition configuration_error : element :=
  ErrorBox (lit "ERROR: OpenAI API key not found. Please add it to your secrets file.")
    rotating_light.

(** Lines 26-27: the prompt for a key. *)
Definition key_prompt : element :=
  InfoBox (lit "Please add your OpenAI API key to your secrets file to continue.") old_key.

(** Lines 30-47: client construction and the two input widgets. *)
Definition inputs (key : value) (file : option UploadedFile) : list event :=
  [ ClientCreated key;
    Draw (FileUploader (lit "Upload your document") [lit "txt"; lit "md"]);
    Draw (TextArea (lit "Ask a question about the document")
            (lit "e.g., Can you give me a short summary of the document?")
            (negb (file_truthy file)) 100) ].

(** Lines 70-74: the request for a document and a question. *)
Definition completion_request (key : value) (document question : str) : request :=
  {| api_key := key; model := lit "gpt-3.5-turbo";
     request_messages := messages document question; stream_flag := true |}.

(** Line 80: the error message for an exception. *)
Definition request_error (ex : exn) : element :=
  ErrorBox (lit "An error occurred: " ++ str_exn ex) rotating_light.

(** The [disabled] flags of the question inputs on a page. *)
Definition question_disabled (pg : list element) : list bool :=
  flat_map (fun el => match el with TextArea _ _ d _ => [d] | _ => [] end) pg.

(** The text that an event adds to the output region. *)
Definition fragment_text (ev : event) : str :=
  match ev with
  | Fragment f => f
  | Draw (Output s) => s
  | _ => []
  end.

(** Line 69: the progress indicator of the request. *)
Definition generating : event := SpinnerOn (lit "Generating answer...").

(** The log of a stream's fragments under [st.write_stream]: each one
    arrives and is appended to the output region. *)
Definition delivered (fs : list str) : list event :=
  flat_map (fun f => [Arrived f; Fragment f]) fs.

(** The fragments that have arrived in a log. *)
Definition arrived_of (t : list event) : list str :=
  flat_map (fun ev => match ev with Arrived f => [f] | _ => [] end) t.

(** The log of a submission at the moment the request has been sent. *)
Definition opened (key : value) (file : UploadedFile) (document question : str)
    : list event :=
  heading ++ inputs key (Some file)
    ++ [generating; RequestSent (completion_request key document question)].

(** A submission: a usable credential, an uploaded file and a question. *)
Definition submits (e : env) (key : value) (file : UploadedFile) : Prop :=
  credential e = Some key /\ truthy key = true /\
  uploaded e = Some file /\ question_text e <> [].

(** *** Sample surroundings *)

Definition with_key (key : str) : secrets_store :=
  SecretsFile {[ lit "API_KEY" := VStr key ]}.

Definition upload (content : string) : option UploadedFile :=
  Some {| data := list_byte_of_string content; position := 0 |}.

Definition sky_fragments : list str := [lit "The "; lit "sky "; lit "is blue."].

(** The example of the specification: a document, a question and a
    streamed answer. *)
Definition sky_env : env :=
  {| secrets := with_key (lit "sk-test");
     uploaded := upload "The sky is blue.";
     question_text := lit "What color is the sky?";
     service := fun _ => Streams {| fragments := sky_fragments; failure := None |} |}.

(** The same submission, answered differently and then cut off. *)
Definition broken_stream_env : env :=
  {| secrets := with_key (lit "sk-test");
     uploaded := upload "The sky is blue.";
     question_text := lit "What color is the sky?";
     service := fun _ => Streams {| fragments := [lit "The "; lit "sky "];
                                    failure := Some (APIError (lit "Connection error.")) |} |}.

Definition refused_env : env :=
  {| secrets := with_key (lit "sk-test");
     uploaded := upload "The sky is blue.";
     question_text := lit "What color is the sky?";
     service := fun _ => CreateFails (APIError (lit "Incorrect API key provided")) |}.

Definition no_secrets_env : env :=
  {| secrets := NoSecretsFile (lit "No secrets files found.");
     uploaded := upload "The sky is blue.";
     question_text := lit "What color is the sky?";
     service := fun _ => Streams {| fragments := sky_fragments; failure := None |} |}.

Definition no_key_env : env :=
  {| secrets := SecretsFile ∅;
     uploaded := upload "The sky is blue.";
     question_text := lit "What color is the sky?";
     service := fun _ => Streams {| fragments := sky_fragments; failure := None |} |}.

Definition empty_key_env : env :=
  {| secrets := with_key [];
     uploaded := upload "The sky is blue.";
     question_text := lit "What color is the sky?";
     service := fun _ => Streams {| fragments := sky_fragments; failure := None |} |}.

Definition no_file_env : env :=
  {| secrets := with_key (lit "sk-test");
     uploaded := None;
     question_text := [];
     service := fun _ => Streams {| fragments := sky_fragments; failure := None |} |}.

(** An uploaded file of zero bytes. *)
Definition empty_file_env : env :=
  {| secrets := with_key (lit "sk-test");
     uploaded := upload "";
     question_text := lit "What color is the sky?";
     service := fun _ => Streams {| fragments := sky_fragments; failure := None |} |}.

(** An uploaded file that is not UTF-8. *)
Definition latin1_env : env :=
  {| secrets := with_key (lit "sk-test");
     uploaded := Some {| data := [x63; x61; x66; xe9]; position := 0 |};
     question_text := lit "What color is the sky?";
     service := fun _ => Streams {| fragments := sky_fragments; failure := None |} |}.

(** *** Further readings of a log *)

(** The same surroundings with another behaviour of the remote service. *)
Definition with_service (e : env) (sv : request -> response) : env :=
  {| secrets := secrets e; uploaded := uploaded e;
     question_text := question_text e; service := sv |}.

(** The texts of the progress indicators that a log shows. *)
Definition spinners_of (t : list event) : list str :=
  flat_map (fun ev => match ev with SpinnerOn text => [text] | _ => [] end) t.

(** Lines 62-63: the text that the prompt puts between the document and the
    question. *)
Definition boundary : str :=
  lit "\n\n---\n\nBased on the document, please answer the following question: ".

(** Bytes below 128, the ASCII range. *)
Definition is_ascii (b : byte) : Prop := (Byte.to_N b < 128)%N.

(** Byte values that the decoder accepts in no position: 0xC0, 0xC1 and
    0xF5 to 0xFF. *)
Definition never_utf8 (n : N) : Prop := (n = 192 \/ n = 193 \/ 245 <= n)%N.

(** A file in another encoding: UTF-16 with its byte order mark. *)
Definition utf16_env : env :=
  {| secrets := with_key (lit "sk-test");
     uploaded := Some {| data := [xff; xfe; x48; x00; x69; x00]; position := 0 |};
     question_text := lit "What color is the sky?";
     service := fun _ => Streams {| fragments := sky_fragments; failure := None |} |}.

(** ** Properties *)

(** *** Decoding *)

Example decode_sky :
  decode (list_byte_of_string "The sky is blue.") = inr (lit "The sky is blue.").
Proof. reflexivity. Qed.

Example decode_empty : decode [] = inr [].
Proof. reflexivity. Qed.

(** U+1F4C4 in four bytes, U+00E9 in two. *)
Example decode_multibyte :
  decode [xf0; x9f; x93; x84; x20; xc3; xa9] = inr [0x1F4C4; 32; 0xE9]%N.
Proof. reflexivity. Qed.

Example decode_latin1 :
  match decode [x63; x61; x66; xe9] with
  | inl ex =>
      str_exn ex = lit "'utf-8' codec can't decode byte 0xe9 in position 3: unexpected end of data"
  | inr _ => False
  end.
Proof. reflexivity. Qed.

Example decode_truncated :
  match decode [xe2; x82] with
  | inl ex =>
      str_exn ex = lit "'utf-8' codec can't decode bytes in position 0-1: unexpected end of data"
  | inr _ => False
  end.
Proof. reflexivity. Qed.

(** Surrogates and overlong forms are refused. *)
Example decode_surrogate :
  decode [xed; xa0; x80]
  = inl (UnicodeDecodeError [xed; xa0; x80] 0 1 (lit "invalid continuation byte")).
Proof. reflexivity. Qed.

(** *** Logs *)

#[local] Arguments lit : simpl never.

Lemma write_fragments_log (shown : str) (fs : list str) (fl : option exn) :
  write_fragments shown fs fl
  = (delivered fs,
     match fl with
     | None => Returned (shown ++ concat fs)
     | Some ex => Raised ex
     end).
Proof.
  revert shown. induction fs as [|f fs IH]; intros shown; simpl.
  - destruct fl; [reflexivity|]. by rewrite app_nil_r.
  - unfold mbind, run_bind, emit. rewrite IH. simpl.
    destruct fl; [reflexivity|]. by rewrite <- app_assoc.
Qed.

Lemma answer_log (e : env) (key : value) (file : UploadedFile) (q : str) :
  answer e key (Some file) q
  = match decode (read file) with
    | inl ex => ([], Raised ex)
    | inr d =>
        match service e (completion_request key d q) with
        | CreateFails ex =>
            ([generating; RequestSent (completion_request key d q); SpinnerOff],
             Raised ex)
        | Streams s =>
            (generating :: RequestSent (completion_request key d q)
               :: delivered (fragments s) ++ [SpinnerOff],
             match failure s with
             | None => Returned tt
             | Some ex => Raised ex
             end)
        end
    end.
Proof.
  unfold answer, read_upload. simpl.
  destruct (decode (read file)) as [ex|d]; [reflexivity|]. simpl.
  unfold chat_completions_create, completion_request. simpl.
  destruct (service e _) as [ex|s]; [reflexivity|]. simpl.
  unfold write_stream. rewrite write_fragments_log.
  destruct (failure s); simpl; by rewrite ?app_nil_r.
Qed.

Lemma app_without_credential (e : env) :
  credential e = None ->
  streamlit_app e = (heading ++ [Draw configuration_error], Stopped).
Proof.
  unfold credential, streamlit_app, secrets_get.
  destruct (secrets e) as [m|entries]; [reflexivity|].
  intros ->. reflexivity.
Qed.

Lemma app_with_empty_credential (e : env) (key : value) :
  credential e = Some key -> truthy key = false ->
  streamlit_app e = (heading ++ [Draw key_prompt], Returned tt).
Proof.
  unfold credential, streamlit_app, secrets_get.
  destruct (secrets e) as [m|entries]; [discriminate|].
  intros -> Hk. simpl. rewrite Hk. reflexivity.
Qed.

Lemma app_with_credential (e : env) (key : value) :
  credential e = Some key -> truthy key = true ->
  streamlit_app e
  = let '(t, r) :=
      if file_truthy (uploaded e) && str_truthy (question_text e) then
        try_except (answer e key (uploaded e) (question_text e)) Exception
          (fun ex => ([Draw (request_error ex)], Returned tt))
      else ([], Returned tt) in
    (heading ++ inputs key (uploaded e) ++ t, r).
Proof.
  unfold credential, streamlit_app, secrets_get.
  destruct (secrets e) as [m|entries]; [discriminate|].
  intros -> Hk. simpl. rewrite Hk. simpl.
  destruct (file_truthy (uploaded e) && str_truthy (question_text e));
    [|reflexivity].
  destruct (answer e key (uploaded e) (question_text e)) as [t [[]|ex|]];
    [reflexivity| |reflexivity].
  by destruct ex.
Qed.

Lemma str_truthy_nonempty (s : str) : str_truthy s = true <-> s <> [].
Proof. destruct s; simpl; split; congruence. Qed.

Lemma try_except_Exception {A} (t : list event) (ex : exn) (h : exn -> run A) :
  try_except (t, Raised ex) Exception h = (let '(t', r) := h ex in (t ++ t', r)).
Proof. by destruct ex. Qed.

(** The log of an execution that has a usable credential but lacks a file
    or a question. *)
Lemma app_idle (e : env) (key : value) :
  credential e = Some key -> truthy key = true ->
  uploaded e = None \/ question_text e = [] ->
  streamlit_app e = (heading ++ inputs key (uploaded e), Returned tt).
Proof.
  intros Hc Hk Hi. rewrite (app_with_credential e key Hc Hk).
  assert (file_truthy (uploaded e) && str_truthy (question_text e) = false) as ->.
  { destruct Hi as [-> | ->]; [reflexivity|]. apply andb_false_r. }
  by rewrite app_nil_r.
Qed.

(** The log of a submission. *)
Lemma app_submission (e : env) (key : value) (file : UploadedFile) :
  submits e key file ->
  streamlit_app e
  = (heading ++ inputs key (Some file) ++
       match decode (read file) with
       | inl ex => [Draw (request_error ex)]
       | inr d =>
           let r := completion_request key d (question_text e) in
           match service e r with
           | CreateFails ex =>
               [generating; RequestSent r; SpinnerOff; Draw (request_error ex)]
           | Streams s =>
               generating :: RequestSent r :: delivered (fragments s)
                 ++ SpinnerOff ::
                    match failure s with
                    | None => []
                    | Some ex => [Draw (request_error ex)]
                    end
           end
       end,
     Returned tt).
Proof.
  intros (Hc & Hk & Hf & Hq). rewrite (app_with_credential e key Hc Hk), Hf.
  apply str_truthy_nonempty in Hq. simpl file_truthy. rewrite Hq. simpl andb.
  rewrite answer_log.
  destruct (decode (read file)) as [ex|d].
  { by rewrite try_except_Exception. }
  cbv zeta. destruct (service e _) as [ex|s].
  { by rewrite try_except_Exception. }
  destruct (failure s) as [ex|].
  - rewrite try_except_Exception. cbv iota beta.
    by rewrite <- !app_comm_cons, <- app_assoc.
  - reflexivity.
Qed.

(** *** Pages *)

Lemma paint_flat_map {B} (f : element -> list B) (pg : list element) (ev : event) :
  (forall s, f (Output s) = []) ->
  flat_map f (rev (paint pg ev))
  = flat_map f (rev pg) ++ match ev with Draw el => f el | _ => [] end.
Proof.
  intros Hf. destruct ev as [el| | |frag| | |]; simpl; rewrite ?app_nil_r; try done.
  - by rewrite flat_map_app; simpl; rewrite app_nil_r.
  - destruct pg as [|[] below]; simpl;
      rewrite ?flat_map_app; simpl; rewrite ?Hf, ?app_nil_r; done.
Qed.

Lemma flat_map_painted {B} (f : element -> list B) (t : list event) (pg : list element) :
  (forall s, f (Output s) = []) ->
  flat_map f (rev (fold_left paint t pg))
  = flat_map f (rev pg)
    ++ flat_map (fun ev => match ev with Draw el => f el | _ => [] end) t.
Proof.
  intros Hf. revert pg. induction t as [|ev t IH]; intros pg; simpl.
  - by rewrite app_nil_r.
  - by rewrite IH, paint_flat_map, <- app_assoc.
Qed.

Lemma paint_rendered (pg : list element) (ev : event) :
  rendered (rev (paint pg ev)) = rendered (rev pg) ++ fragment_text ev.
Proof.
  unfold rendered.
  destruct ev as [el| | |frag| | |]; simpl; rewrite ?app_nil_r; try done.
  - rewrite flat_map_app. simpl. rewrite app_nil_r. by destruct el.
  - destruct pg as [|[] below]; simpl;
      rewrite ?flat_map_app; simpl; rewrite ?app_nil_r, ?app_assoc; done.
Qed.

Lemma rendered_painted (t : list event) (pg : list element) :
  rendered (rev (fold_left paint t pg))
  = rendered (rev pg) ++ flat_map fragment_text t.
Proof.
  revert pg. induction t as [|ev t IH]; intros pg; simpl.
  - by rewrite app_nil_r.
  - by rewrite IH, paint_rendered, <- app_assoc.
Qed.

(** The output region shows the fragments logged so far, in order. *)
Lemma rendered_screen_of (t : list event) :
  rendered (screen_of t) = flat_map fragment_text t.
Proof. unfold screen_of. by rewrite rendered_painted. Qed.

Lemma flat_map_fragments (fs : list str) :
  flat_map fragment_text (delivered fs) = concat fs.
Proof. induction fs as [|f fs IH]; simpl; [done|]. by rewrite IH. Qed.

Lemma screen_of_draw (t : list event) (el : element) :
  screen_of (t ++ [Draw el]) = screen_of t ++ [el].
Proof. unfold screen_of. by rewrite fold_left_app. Qed.

Lemma screen_of_spinner_off (t : list event) :
  screen_of (t ++ [SpinnerOff]) = screen_of t.
Proof. unfold screen_of. by rewrite fold_left_app. Qed.

Lemma errors_of_screen (t : list event) :
  errors_of (screen_of t)
  = flat_map (fun ev => match ev with Draw (ErrorBox b i) => [(b, i)] | _ => [] end) t.
Proof.
  unfold errors_of, screen_of. rewrite flat_map_painted by done. simpl.
  apply flat_map_ext. by intros [[]| | | | | |].
Qed.

Lemma question_disabled_screen (t : list event) :
  question_disabled (screen_of t)
  = flat_map (fun ev => match ev with Draw (TextArea _ _ d _) => [d] | _ => [] end) t.
Proof.
  unfold question_disabled, screen_of. rewrite flat_map_painted by done. simpl.
  apply flat_map_ext. by intros [[]| | | | | |].
Qed.

Lemma flat_map_fragments_nil {B} (g : event -> list B) (fs : list str) :
  (forall f, g (Fragment f) = [] /\ g (Arrived f) = []) ->
  flat_map g (delivered fs) = [].
Proof.
  intros Hg. induction fs as [|f fs IH]; simpl; [done|].
  destruct (Hg f) as [-> ->]. by rewrite IH.
Qed.

(** *** Requests *)

(** The requests of one execution, in closed form. *)
Lemma sent_spec (e : env) :
  sent e
  = match credential e, uploaded e with
    | Some key, Some file =>
        if truthy key && str_truthy (question_text e) then
          match decode (read file) with
          | inl _ => []
          | inr d => [completion_request key d (question_text e)]
          end
        else []
    | _, _ => []
    end.
Proof.
  unfold sent.
  destruct (credential e) as [key|] eqn:Hc;
    [|by rewrite (app_without_credential e Hc)].
  destruct (truthy key) eqn:Hk; cycle 1.
  { rewrite (app_with_empty_credential e key Hc Hk). by destruct (uploaded e). }
  destruct (uploaded e) as [file|] eqn:Hf; cycle 1.
  { rewrite (app_idle e key Hc Hk) by auto. by rewrite Hf. }
  destruct (str_truthy (question_text e)) eqn:Hq; cycle 1.
  { rewrite (app_idle e key Hc Hk); [by rewrite Hf|].
    right. by destruct (question_text e). }
  assert (Hs : submits e key file).
  { repeat split; try done. by apply str_truthy_nonempty. }
  rewrite (app_submission e key file Hs). simpl fst. simpl andb. cbv iota.
  unfold requests_of.
  destruct (decode (read file)) as [ex|d]; [done|]. cbv zeta.
  destruct (service e _) as [ex|s]; [done|].
  simpl. rewrite flat_map_app, flat_map_fragments_nil by done.
  by destruct (failure s).
Qed.

Lemma sent_submission (e : env) (key : value) (file : UploadedFile) :
  submits e key file ->
  sent e = match decode (read file) with
           | inl _ => []
           | inr d => [completion_request key d (question_text e)]
           end.
Proof.
  intros (Hc & Hk & Hf & Hq). rewrite sent_spec, Hc, Hf, Hk.
  apply str_truthy_nonempty in Hq. by rewrite Hq.
Qed.

(** No execution ends with an unhandled exception. *)
Lemma app_never_raises (e : env) (ex : exn) : snd (streamlit_app e) <> Raised ex.
Proof.
  destruct (credential e) as [key|] eqn:Hc;
    [|by rewrite (app_without_credential e Hc)].
  destruct (truthy key) eqn:Hk;
    [|by rewrite (app_with_empty_credential e key Hc Hk)].
  destruct (uploaded e) as [file|] eqn:Hf;
    [|by rewrite (app_idle e key Hc Hk) by auto].
  destruct (question_text e) as [|c q] eqn:Hq;
    [by rewrite (app_idle e key Hc Hk) by auto|].
  rewrite (app_submission e key file); [done|].
  unfold submits. by rewrite Hq.
Qed.

(** *** The prompt *)

(** The content of the message, read as the five parts that the
    specification names. *)
Lemma messages_content (D Q : str) :
  messages D Q
  = [ {| role := lit "user";
         content :=
           lit "You are an expert at answering questions based on a provided document."
           ++ lit "\n\nHere is the document:\n\n---\n\n"
           ++ D
           ++ lit "\n\n---\n\nBased on the document, please answer the following question: "
           ++ Q |} ].
Proof.
  unfold messages. do 2 f_equal. rewrite <- !app_assoc. reflexivity.
Qed.

(** C1.  For every non-empty document D and non-empty question Q, the prompt
    builder yields exactly one message; its role is "user" and its content is
    the instruction sentence, a delimiter, D verbatim, a second delimiter and
    Q verbatim, in this order, so that nothing of D or Q is escaped or cut. *)
Theorem prompt_is_one_user_message (D Q : str) :
  D <> [] -> Q <> [] ->
  exists m : message,
    messages D Q = [m] /\
    role m = lit "user" /\
    content m
    = lit "You are an expert at answering questions based on a provided document."
      ++ lit "\n\nHere is the document:\n\n---\n\n"
      ++ D
      ++ lit "\n\n---\n\nBased on the document, please answer the following question: "
      ++ Q /\
    length (content m) = (168 + length D + length Q)%nat.
Proof.
  intros _ _. rewrite messages_content. eexists. split; [reflexivity|].
  split; [reflexivity|]. split; [reflexivity|].
  cbn [content]. rewrite !length_app.
  change (length (lit "You are an expert at answering questions based on a provided document.")) with 70%nat.
  change (length (lit "\n\nHere is the document:\n\n---\n\n")) with 30%nat.
  change (length (lit "\n\n---\n\nBased on the document, please answer the following question: ")) with 68%nat.
  lia.
Qed.

Lemma prompt_is_one_user_message_witness :
  exists m : message,
    messages (lit "The sky is blue.") (lit "What color is the sky?") = [m] /\
    role m = lit "user" /\
    content m
    = lit "You are an expert at answering questions based on a provided document."
      ++ lit "\n\nHere is the document:\n\n---\n\n"
      ++ lit "The sky is blue."
      ++ lit "\n\n---\n\nBased on the document, please answer the following question: "
      ++ lit "What color is the sky?" /\
    length (content m) = (168 + 16 + 22)%nat.
Proof.
  apply (prompt_is_one_user_message (lit "The sky is blue.") (lit "What color is the sky?"));
    discriminate.
Defined.

(** *** When a request is sent *)

(** The specification's example sends one request, with the document and
    the question in the prompt. *)
Example sky_request :
  sent sky_env
  = [completion_request (VStr (lit "sk-test")) (lit "The sky is blue.")
       (lit "What color is the sky?")].
Proof. reflexivity. Qed.

(** C2, as stated, fails: an uploaded file of zero bytes decodes to the empty
    document, and the request is sent all the same. *)
Lemma empty_document_is_requested :
  document_of empty_file_env = Some [] /\
  question_text empty_file_env <> [] /\
  sent empty_file_env
  = [completion_request (VStr (lit "sk-test")) [] (lit "What color is the sky?")].
Proof. split; [reflexivity|]. split; [discriminate|reflexivity]. Qed.

(** C2, amended.  A completion request is sent only when a file has been
    uploaded and the question is a non-empty string; none is sent when no
    file has been uploaded or the question is empty.  The decoded document
    itself is not tested. *)
Theorem request_needs_file_and_question (e : env) :
  (sent e <> [] -> is_Some (uploaded e) /\ question_text e <> []) /\
  (uploaded e = None \/ question_text e = [] -> sent e = []).
Proof.
  assert (Hno : uploaded e = None \/ question_text e = [] -> sent e = []).
  { intros H. rewrite sent_spec.
    destruct (credential e) as [key|]; [|done].
    destruct H as [-> | ->]; [done|].
    destruct (uploaded e); [|done]. by rewrite andb_false_r. }
  split; [|exact Hno].
  intros Hs. split.
  - destruct (uploaded e) eqn:Hf; [by eexists|]. destruct Hs. apply Hno. by left.
  - intros Hq. destruct Hs. apply Hno. by right.
Qed.

Lemma request_needs_file_and_question_witness :
  is_Some (uploaded sky_env) /\ question_text sky_env <> [].
Proof.
  apply (proj1 (request_needs_file_and_question sky_env)). vm_compute. discriminate.
Defined.

(** C10.  When decoding the uploaded bytes raises, the execution sends no
    completion request; in a submission the log then consists of the page's
    fixed elements followed by the error message, so the handler is reached
    before the indicator is shown or the request is opened. *)
Theorem decode_failure_sends_no_request (e : env) (file : UploadedFile) (ex : exn) :
  uploaded e = Some file ->
  decode (read file) = inl ex ->
  sent e = [] /\
  forall key : value,
    submits e key file ->
    streamlit_app e
    = (heading ++ inputs key (Some file) ++ [Draw (request_error ex)], Returned tt).
Proof.
  intros Hf Hd. split.
  - rewrite sent_spec, Hf, Hd. destruct (credential e) as [key|]; [|done].
    by destruct (truthy key && str_truthy (question_text e)).
  - intros key Hs. by rewrite (app_submission e key file Hs), Hd.
Qed.

Lemma decode_failure_sends_no_request_witness :
  sent latin1_env = [] /\
  forall key : value,
    submits latin1_env key {| data := [x63; x61; x66; xe9]; position := 0 |} ->
    streamlit_app latin1_env
    = (heading ++ inputs key (Some {| data := [x63; x61; x66; xe9]; position := 0 |})
         ++ [Draw (request_error
                     (UnicodeDecodeError [x63; x61; x66; xe9] 3 4
                        (lit "unexpected end of data")))],
       Returned tt).
Proof.
  apply (decode_failure_sends_no_request latin1_env
           {| data := [x63; x61; x66; xe9]; position := 0 |}); reflexivity.
Defined.

(** The message shown for the file that is not UTF-8. *)
Example latin1_message :
  errors_of (page latin1_env)
  = [(lit "An error occurred: 'utf-8' codec can't decode byte 0xe9 in position 3: unexpected end of data",
      rotating_light)].
Proof. reflexivity. Qed.

(** *** The credential *)

(** C4.  When the secrets store is unavailable or lacks the key, the
    execution shows the configuration error and is stopped there: the page
    holds no file uploader and no question input, no client is constructed
    and no request is sent. *)
Theorem missing_credential_halts (e : env) :
  (exists m, secrets e = NoSecretsFile m)
  \/ (exists entries, secrets e = SecretsFile entries /\ entries !! lit "API_KEY" = None) ->
  streamlit_app e = (heading ++ [Draw configuration_error], Stopped) /\
  errors_of (page e) = [(lit "ERROR: OpenAI API key not found. Please add it to your secrets file.", rotating_light)] /\
  filter is_input (page e) = [] /\
  clients_of (fst (streamlit_app e)) = [] /\
  sent e = [].
Proof.
  intros H.
  assert (Hc : credential e = None).
  { unfold credential. by destruct H as [[m ->] | (entries & -> & ->)]. }
  unfold page, sent. by rewrite (app_without_credential e Hc).
Qed.

Lemma missing_credential_halts_witness :
  streamlit_app no_key_env = (heading ++ [Draw configuration_error], Stopped) /\
  errors_of (page no_key_env) = [(lit "ERROR: OpenAI API key not found. Please add it to your secrets file.", rotating_light)] /\
  filter is_input (page no_key_env) = [] /\
  clients_of (fst (streamlit_app no_key_env)) = [] /\
  sent no_key_env = [].
Proof.
  apply (missing_credential_halts no_key_env).
  right. exists ∅. split; reflexivity.
Defined.

(** The same holds when there is no secrets file at all. *)
Example no_secrets_file_halts :
  streamlit_app no_secrets_env = (heading ++ [Draw configuration_error], Stopped).
Proof. reflexivity. Qed.

(** C9.  When the key is present but its value is false (an empty string,
    for one), the execution is not stopped: it ends normally after showing
    the prompt for a key, shows no error, constructs no client and sends no
    request. *)
Theorem empty_credential_prompts (e : env) (entries : gmap str value) (key : value) :
  secrets e = SecretsFile entries ->
  entries !! lit "API_KEY" = Some key ->
  truthy key = false ->
  streamlit_app e = (heading ++ [Draw key_prompt], Returned tt) /\
  snd (streamlit_app e) <> Stopped /\
  errors_of (page e) = [] /\
  filter is_input (page e) = [] /\
  clients_of (fst (streamlit_app e)) = [] /\
  sent e = [].
Proof.
  intros Hs Hl Hk.
  assert (Hc : credential e = Some key).
  { unfold credential. by rewrite Hs. }
  unfold page, sent. by rewrite (app_with_empty_credential e key Hc Hk).
Qed.

Lemma empty_credential_prompts_witness :
  streamlit_app empty_key_env = (heading ++ [Draw key_prompt], Returned tt) /\
  snd (streamlit_app empty_key_env) <> Stopped /\
  errors_of (page empty_key_env) = [] /\
  filter is_input (page empty_key_env) = [] /\
  clients_of (fst (streamlit_app empty_key_env)) = [] /\
  sent empty_key_env = [].
Proof.
  apply (empty_credential_prompts empty_key_env {[ lit "API_KEY" := VStr [] ]} (VStr []));
    reflexivity.
Defined.

(** *** Errors of a submission *)

(** C3.  In a submission, an exception raised by decoding the document, by
    the call to the remote service or while the stream is consumed is caught
    by the handler of the [try] statement: the execution ends normally and
    the page shows exactly one error message, which carries the text of the
    exception.  (Assembling the prompt concatenates strings and raises
    nothing.) *)
Theorem request_exception_is_displayed
    (e : env) (key : value) (file : UploadedFile) (ex : exn) :
  submits e key file ->
  decode (read file) = inl ex
  \/ (exists d, decode (read file) = inr d /\
        service e (completion_request key d (question_text e)) = CreateFails ex)
  \/ (exists d s, decode (read file) = inr d /\
        service e (completion_request key d (question_text e)) = Streams s /\
        failure s = Some ex) ->
  snd (streamlit_app e) = Returned tt /\
  errors_of (page e) = [(lit "An error occurred: " ++ str_exn ex, rotating_light)].
Proof.
  intros Hs H. split.
  { by rewrite (app_submission e key file Hs). }
  unfold page. rewrite (app_submission e key file Hs), errors_of_screen.
  simpl fst.
  destruct H as [-> | [(d & -> & ->) | (d & s & -> & -> & Hx)]]; [done..|].
  cbv zeta. rewrite Hx. simpl.
  rewrite flat_map_app, flat_map_fragments_nil by done. reflexivity.
Qed.

Lemma request_exception_is_displayed_witness :
  snd (streamlit_app broken_stream_env) = Returned tt /\
  errors_of (page broken_stream_env)
  = [(lit "An error occurred: " ++ str_exn (APIError (lit "Connection error.")),
      rotating_light)].
Proof.
  apply (request_exception_is_displayed broken_stream_env (VStr (lit "sk-test"))
           {| data := list_byte_of_string "The sky is blue."; position := 0 |}).
  - repeat split; discriminate.
  - right. right. exists (lit "The sky is blue.").
    exists {| fragments := [lit "The "; lit "sky "];
              failure := Some (APIError (lit "Connection error.")) |}.
    repeat split.
Defined.

(** A request that the service refuses, and a document that does not decode,
    end the same way. *)
Example refused_message :
  snd (streamlit_app refused_env) = Returned tt /\
  errors_of (page refused_env)
  = [(lit "An error occurred: Incorrect API key provided", rotating_light)].
Proof. split; reflexivity. Qed.

(** *** The question input *)

(** C7.  With a usable credential the page holds one question input; it is
    disabled when no file has been uploaded, and enabled exactly when one
    has. *)
Theorem question_input_follows_file (e : env) (key : value) :
  credential e = Some key -> truthy key = true ->
  question_disabled (page e) = [negb (file_truthy (uploaded e))] /\
  (uploaded e = None -> question_disabled (page e) = [true]) /\
  (question_disabled (page e) = [false] <-> is_Some (uploaded e)).
Proof.
  intros Hc Hk.
  assert (H : question_disabled (page e) = [negb (file_truthy (uploaded e))]).
  { unfold page. rewrite question_disabled_screen.
    destruct (uploaded e) as [file|] eqn:Hf;
      [|by rewrite (app_idle e key Hc Hk), Hf by auto].
    destruct (question_text e) as [|c q] eqn:Hq;
      [by rewrite (app_idle e key Hc Hk), Hf by auto|].
    rewrite (app_submission e key file); [|unfold submits; by rewrite Hq].
    simpl fst.
    destruct (decode (read file)) as [ex|d]; [done|]. cbv zeta.
    destruct (service e _) as [ex|s]; [done|]. simpl.
    rewrite flat_map_app, flat_map_fragments_nil by done.
    by destruct (failure s). }
  rewrite H. split; [done|]. split; [by intros ->|].
  destruct (uploaded e); simpl; split; done.
Qed.

Lemma question_input_follows_file_witness :
  question_disabled (page no_file_env) = [negb (file_truthy (uploaded no_file_env))] /\
  (uploaded no_file_env = None -> question_disabled (page no_file_env) = [true]) /\
  (question_disabled (page no_file_env) = [false] <-> is_Some (uploaded no_file_env)).
Proof.
  apply (question_input_follows_file no_file_env (VStr (lit "sk-test"))); reflexivity.
Defined.

(** Whatever the credential, no page without an uploaded file holds an
    enabled question input. *)
Lemma no_enabled_input_without_file (e : env) :
  uploaded e = None -> ~ In false (question_disabled (page e)).
Proof.
  intros Hf. unfold page. rewrite question_disabled_screen.
  destruct (credential e) as [key|] eqn:Hc;
    [|rewrite (app_without_credential e Hc); simpl; tauto].
  destruct (truthy key) eqn:Hk;
    [|rewrite (app_with_empty_credential e key Hc Hk); simpl; tauto].
  rewrite (app_idle e key Hc Hk), Hf by auto. simpl. intros [?|[]]. done.
Qed.

Example question_input_without_file : question_disabled (page no_file_env) = [true].
Proof. reflexivity. Qed.

Example question_input_with_file : question_disabled (page sky_env) = [false].
Proof. reflexivity. Qed.

(** *** Submitting again *)

(** C8.  An execution reads nothing but its own surroundings, and a session
    is the sequence of its executions.  So two submissions of the same
    document and question each send exactly one request, whatever the service
    answered the first time: the session sends the request twice. *)
Theorem resubmission_sends_again
    (e1 e2 : env) (k1 k2 : value) (f1 f2 : UploadedFile) (D Q : str) :
  submits e1 k1 f1 -> submits e2 k2 f2 ->
  decode (read f1) = inr D -> decode (read f2) = inr D ->
  question_text e1 = Q -> question_text e2 = Q ->
  sent e1 = [completion_request k1 D Q] /\
  sent e2 = [completion_request k2 D Q] /\
  session_sent [e1; e2] = [completion_request k1 D Q; completion_request k2 D Q].
Proof.
  intros H1 H2 D1 D2 Q1 Q2.
  assert (S1 : sent e1 = [completion_request k1 D Q]).
  { by rewrite (sent_submission e1 k1 f1 H1), D1, Q1. }
  assert (S2 : sent e2 = [completion_request k2 D Q]).
  { by rewrite (sent_submission e2 k2 f2 H2), D2, Q2. }
  unfold session_sent. simpl. by rewrite S1, S2.
Qed.

(** The second submission of the example is answered differently and cut
    off; both requests are sent and they are equal. *)
Lemma resubmission_sends_again_witness :
  sent sky_env
  = [completion_request (VStr (lit "sk-test")) (lit "The sky is blue.")
       (lit "What color is the sky?")] /\
  sent broken_stream_env
  = [completion_request (VStr (lit "sk-test")) (lit "The sky is blue.")
       (lit "What color is the sky?")] /\
  session_sent [sky_env; broken_stream_env]
  = [completion_request (VStr (lit "sk-test")) (lit "The sky is blue.")
       (lit "What color is the sky?");
     completion_request (VStr (lit "sk-test")) (lit "The sky is blue.")
       (lit "What color is the sky?")].
Proof.
  apply (resubmission_sends_again sky_env broken_stream_env
           (VStr (lit "sk-test")) (VStr (lit "sk-test"))
           {| data := list_byte_of_string "The sky is blue."; position := 0 |}
           {| data := list_byte_of_string "The sky is blue."; position := 0 |});
    try reflexivity; repeat split; discriminate.
Defined.

Example resubmission_outputs_differ :
  rendered (page sky_env) = lit "The sky is blue." /\
  rendered (page broken_stream_env) = lit "The sky ".
Proof. split; reflexivity. Qed.

(** *** The streamed answer *)

Lemma arrived_of_app (t1 t2 : list event) :
  arrived_of (t1 ++ t2) = arrived_of t1 ++ arrived_of t2.
Proof. apply flat_map_app. Qed.

Lemma arrived_of_delivered (fs : list str) : arrived_of (delivered fs) = fs.
Proof. induction fs as [|f fs IH]; simpl; [done|]. by rewrite IH. Qed.

Lemma delivered_app (fs gs : list str) :
  delivered (fs ++ gs) = delivered fs ++ delivered gs.
Proof. apply flat_map_app. Qed.

(** The moments of a delivery: between two fragments, or right after an
    arrival. *)
Lemma delivered_split (fs : list str) (p q : list event) :
  p ++ q = delivered fs ->
  (exists k, p = delivered (take k fs))
  \/ (exists k f, fs !! k = Some f /\ p = delivered (take k fs) ++ [Arrived f]).
Proof.
  revert p q. induction fs as [|f fs IH]; intros p q H.
  { left. exists 0. by destruct p. }
  destruct p as [|x [|y p]].
  - left. by exists 0.
  - right. exists 0, f. injection H as -> _. done.
  - injection H as -> -> H.
    destruct (IH p q H) as [[k ->] | (k & f' & Hk & ->)].
    + left. by exists (S k).
    + right. by exists (S k), f'.
Qed.

(** C5.  For a stream that delivers its fragments and closes, the log of the
    submission is the log up to the request, then for each fragment, in
    order, its arrival followed at once by its appending to the output
    region, then the end of the indicator.  The final output is all
    fragments joined.  At every moment of the execution the output shown is
    a prefix of the final output and consists of all fragments that have
    arrived, the one moment excepted that lies between the arrival of a
    fragment and its appending; so no fragment waits for a later one, and
    nothing is held back until the answer is complete.  After the k-th
    fragment the output is the first k fragments joined, the previous state
    extended by that fragment. *)
Theorem stream_is_rendered_in_arrival_order
    (e : env) (key : value) (file : UploadedFile) (d : str) (s : stream) :
  submits e key file ->
  decode (read file) = inr d ->
  service e (completion_request key d (question_text e)) = Streams s ->
  failure s = None ->
  fst (streamlit_app e)
  = opened key file d (question_text e) ++ delivered (fragments s) ++ [SpinnerOff] /\
  rendered (page e) = concat (fragments s) /\
  arrived_of (fst (streamlit_app e)) = fragments s /\
  (forall p q : list event,
     fst (streamlit_app e) = p ++ q ->
     rendered (screen_of p) `prefix_of` rendered (page e) /\
     (concat (arrived_of p) = rendered (screen_of p)
      \/ exists f, last p = Some (Arrived f) /\
                   concat (arrived_of p) = rendered (screen_of p) ++ f)) /\
  (forall k : nat,
     rendered (screen_of (opened key file d (question_text e)
                            ++ delivered (take k (fragments s))))
     = concat (take k (fragments s)) /\
     forall f, fragments s !! k = Some f ->
       rendered (screen_of (opened key file d (question_text e)
                              ++ delivered (take (S k) (fragments s))))
       = rendered (screen_of (opened key file d (question_text e)
                                ++ delivered (take k (fragments s))))
         ++ f).
Proof.
  intros Hs Hd Hr Hf.
  assert (Hlog : fst (streamlit_app e)
    = opened key file d (question_text e) ++ delivered (fragments s) ++ [SpinnerOff]).
  { rewrite (app_submission e key file Hs), Hd. cbv zeta. rewrite Hr, Hf.
    unfold opened. simpl fst. by rewrite <- !app_assoc. }
  assert (Ho : flat_map fragment_text (opened key file d (question_text e)) = []
               /\ arrived_of (opened key file d (question_text e)) = []).
  { split; reflexivity. }
  destruct Ho as [Ho1 Ho2].
  assert (Hshown : forall fs,
    rendered (screen_of (opened key file d (question_text e) ++ delivered fs))
    = concat fs).
  { intros fs. by rewrite rendered_screen_of, flat_map_app, flat_map_fragments. }
  assert (Hfinal : rendered (page e) = concat (fragments s)).
  { unfold page. rewrite Hlog, app_assoc, screen_of_spinner_off. apply Hshown. }
  assert (Hpre : forall k, concat (take k (fragments s)) `prefix_of` concat (fragments s)).
  { intros k. exists (concat (drop k (fragments s))).
    by rewrite <- concat_app, take_drop. }
  split; [exact Hlog|]. split; [exact Hfinal|]. split.
  { rewrite Hlog, !arrived_of_app, Ho2, arrived_of_delivered. simpl.
    by rewrite app_nil_r. }
  split.
  - intros p q Hpq. rewrite Hfinal, rendered_screen_of. rewrite Hlog in Hpq.
    symmetry in Hpq.
    apply app_eq_inv in Hpq as [(r & -> & Hrest) | (r & Hop & _)]; cycle 1.
    { (* before the request has been sent *)
      assert (flat_map fragment_text p = [] /\ arrived_of p = []) as [-> ->].
      { rewrite Hop, flat_map_app in Ho1. rewrite Hop, arrived_of_app in Ho2.
        apply app_eq_nil in Ho1 as [? _]. by apply app_eq_nil in Ho2 as [? _]. }
      split; [apply prefix_nil|by left]. }
    rewrite flat_map_app, arrived_of_app, Ho1, Ho2. simpl.
    symmetry in Hrest.
    apply app_eq_inv in Hrest as [(r' & -> & Hend) | (r' & Hdel & _)].
    { (* after the last fragment *)
      assert (flat_map fragment_text r' = [] /\ arrived_of r' = []) as [Hr1 Hr2].
      { destruct r' as [|x r']; [done|]. injection Hend as <- Hend.
        symmetry in Hend. by apply app_eq_nil in Hend as [-> _]. }
      rewrite flat_map_app, arrived_of_app, flat_map_fragments,
        arrived_of_delivered, Hr1, Hr2, !app_nil_r.
      split; [done|by left]. }
    (* while the fragments are delivered *)
    symmetry in Hdel.
    apply delivered_split in Hdel as [[k ->] | (k & f & Hk & ->)].
    + rewrite flat_map_fragments, arrived_of_delivered. split; [apply Hpre|by left].
    + rewrite flat_map_app, arrived_of_app, flat_map_fragments, arrived_of_delivered.
      simpl. rewrite app_nil_r. split; [apply Hpre|].
      right. exists f. split.
      * by rewrite app_comm_cons, last_snoc.
      * rewrite concat_app. simpl. by rewrite app_nil_r.
  - intros k. split; [apply Hshown|].
    intros f Hk. rewrite !Hshown, (take_S_r _ _ _ Hk), concat_app. simpl.
    by rewrite app_nil_r.
Qed.

Lemma stream_is_rendered_in_arrival_order_witness :
  fst (streamlit_app sky_env)
  = opened (VStr (lit "sk-test"))
      {| data := list_byte_of_string "The sky is blue."; position := 0 |}
      (lit "The sky is blue.") (question_text sky_env)
    ++ delivered sky_fragments ++ [SpinnerOff] /\
  rendered (page sky_env) = concat sky_fragments /\
  arrived_of (fst (streamlit_app sky_env)) = sky_fragments /\
  (forall p q : list event,
     fst (streamlit_app sky_env) = p ++ q ->
     rendered (screen_of p) `prefix_of` rendered (page sky_env) /\
     (concat (arrived_of p) = rendered (screen_of p)
      \/ exists f, last p = Some (Arrived f) /\
                   concat (arrived_of p) = rendered (screen_of p) ++ f)) /\
  (forall k : nat,
     rendered (screen_of (opened (VStr (lit "sk-test"))
                            {| data := list_byte_of_string "The sky is blue."; position := 0 |}
                            (lit "The sky is blue.") (question_text sky_env)
                            ++ delivered (take k sky_fragments)))
     = concat (take k sky_fragments) /\
     forall f, sky_fragments !! k = Some f ->
       rendered (screen_of (opened (VStr (lit "sk-test"))
                              {| data := list_byte_of_string "The sky is blue."; position := 0 |}
                              (lit "The sky is blue.") (question_text sky_env)
                              ++ delivered (take (S k) sky_fragments)))
       = rendered (screen_of (opened (VStr (lit "sk-test"))
                                {| data := list_byte_of_string "The sky is blue."; position := 0 |}
                                (lit "The sky is blue.") (question_text sky_env)
                                ++ delivered (take k sky_fragments)))
         ++ f).
Proof.
  apply (stream_is_rendered_in_arrival_order sky_env (VStr (lit "sk-test"))
           {| data := list_byte_of_string "The sky is blue."; position := 0 |}
           (lit "The sky is blue.")
           {| fragments := sky_fragments; failure := None |});
    try reflexivity; repeat split; discriminate.
Defined.

(** The moments of the example from the sending of the request on: what has
    arrived and what the output region shows. *)
Example sky_states :
  map (fun n => (concat (arrived_of (take n (fst (streamlit_app sky_env)))),
                 rendered (screen_of (take n (fst (streamlit_app sky_env))))))
    [7; 8; 9; 10; 11; 12; 13]
  = [ (lit "", lit "");
      (lit "The ", lit "");
      (lit "The ", lit "The ");
      (lit "The sky ", lit "The ");
      (lit "The sky ", lit "The sky ");
      (lit "The sky is blue.", lit "The sky ");
      (lit "The sky is blue.", lit "The sky is blue.") ].
Proof. reflexivity. Qed.

Example sky_output : rendered (page sky_env) = lit "The sky is blue.".
Proof. reflexivity. Qed.

(** C6.  When the stream fails after some fragments, the page at that moment
    shows them joined in the output region; the execution then takes the
    indicator down and draws the error message.  The final page is the page
    at the moment of failure, every element unchanged, followed by the error
    message, so the output region still shows the fragments received. *)
Theorem partial_output_survives_failure
    (e : env) (key : value) (file : UploadedFile) (d : str) (s : stream) (ex : exn) :
  submits e key file ->
  decode (read file) = inr d ->
  service e (completion_request key d (question_text e)) = Streams s ->
  failure s = Some ex ->
  fst (streamlit_app e)
  = (opened key file d (question_text e) ++ delivered (fragments s))
      ++ [SpinnerOff; Draw (request_error ex)] /\
  rendered (screen_of (opened key file d (question_text e) ++ delivered (fragments s)))
  = concat (fragments s) /\
  page e
  = screen_of (opened key file d (question_text e) ++ delivered (fragments s))
      ++ [request_error ex] /\
  rendered (page e) = concat (fragments s) /\
  spinner_of (fst (streamlit_app e)) = None.
Proof.
  intros Hs Hd Hr Hf.
  assert (Hlog : fst (streamlit_app e)
    = (opened key file d (question_text e) ++ delivered (fragments s))
        ++ [SpinnerOff; Draw (request_error ex)]).
  { rewrite (app_submission e key file Hs), Hd. cbv zeta. rewrite Hr, Hf.
    unfold opened. simpl fst. by rewrite <- !app_assoc. }
  assert (Hshown :
    rendered (screen_of (opened key file d (question_text e)
                           ++ delivered (fragments s)))
    = concat (fragments s)).
  { by rewrite rendered_screen_of, flat_map_app, flat_map_fragments. }
  assert (Hpage : page e
    = screen_of (opened key file d (question_text e) ++ delivered (fragments s))
        ++ [request_error ex]).
  { unfold page. rewrite Hlog.
    change [SpinnerOff; Draw (request_error ex)]
      with ([SpinnerOff] ++ [Draw (request_error ex)]).
    by rewrite app_assoc, screen_of_draw, screen_of_spinner_off. }
  split; [exact Hlog|]. split; [exact Hshown|]. split; [exact Hpage|]. split.
  - rewrite Hpage. unfold rendered in *. rewrite flat_map_app, Hshown. simpl.
    by rewrite app_nil_r.
  - rewrite Hlog. unfold spinner_of. by rewrite fold_left_app.
Qed.

Lemma partial_output_survives_failure_witness :
  fst (streamlit_app broken_stream_env)
  = (opened (VStr (lit "sk-test"))
       {| data := list_byte_of_string "The sky is blue."; position := 0 |}
       (lit "The sky is blue.") (question_text broken_stream_env)
       ++ delivered [lit "The "; lit "sky "])
      ++ [SpinnerOff; Draw (request_error (APIError (lit "Connection error.")))] /\
  rendered (screen_of (opened (VStr (lit "sk-test"))
                         {| data := list_byte_of_string "The sky is blue."; position := 0 |}
                         (lit "The sky is blue.") (question_text broken_stream_env)
                         ++ delivered [lit "The "; lit "sky "]))
  = concat [lit "The "; lit "sky "] /\
  page broken_stream_env
  = screen_of (opened (VStr (lit "sk-test"))
                 {| data := list_byte_of_string "The sky is blue."; position := 0 |}
                 (lit "The sky is blue.") (question_text broken_stream_env)
                 ++ delivered [lit "The "; lit "sky "])
      ++ [request_error (APIError (lit "Connection error."))] /\
  rendered (page broken_stream_env) = concat [lit "The "; lit "sky "] /\
  spinner_of (fst (streamlit_app broken_stream_env)) = None.
Proof.
  apply (partial_output_survives_failure broken_stream_env (VStr (lit "sk-test"))
           {| data := list_byte_of_string "The sky is blue."; position := 0 |}
           (lit "The sky is blue.")
           {| fragments := [lit "The "; lit "sky "];
              failure := Some (APIError (lit "Connection error.")) |});
    try reflexivity; repeat split; discriminate.
Defined.

(** The page of the interrupted example, element by element. *)
Example broken_stream_page :
  drop 4 (page broken_stream_env)
  = [Output (lit "The sky "); ErrorBox (lit "An error occurred: Connection error.") rotating_light].
Proof. reflexivity. Qed.

(** ** Further properties of the script *)

(** The four ways an execution can go. *)
Lemma app_cases (e : env) :
  credential e = None
  \/ (exists key, credential e = Some key /\ truthy key = false)
  \/ (exists key, credential e = Some key /\ truthy key = true /\
        (uploaded e = None \/ question_text e = []))
  \/ (exists key file, submits e key file).
Proof.
  destruct (credential e) as [key|] eqn:Hc; [|by left].
  right. destruct (truthy key) eqn:Hk; [|left; by exists key].
  right. destruct (uploaded e) as [file|] eqn:Hf; [|left; exists key; auto].
  destruct (question_text e) as [|c q] eqn:Hq; [left; exists key; auto|].
  right. exists key, file. unfold submits. by rewrite Hq.
Qed.

Ltac by_app_cases e :=
  let key := fresh "key" in
  let file := fresh "file" in
  let Hc := fresh "Hc" in
  let Hk := fresh "Hk" in
  let Hi := fresh "Hi" in
  let Hs := fresh "Hs" in
  destruct (app_cases e)
    as [Hc | [(key & Hc & Hk) | [(key & Hc & Hk & Hi) | (key & file & Hs)]]];
  [ rewrite (app_without_credential e Hc)
  | rewrite (app_with_empty_credential e key Hc Hk)
  | rewrite (app_idle e key Hc Hk Hi)
  | rewrite (app_submission e key file Hs) ].

(** X1.  Every execution ends in one of two ways: it is stopped, exactly when
    the secrets store yields no credential, or it returns normally.  No
    exception leaves the script. *)
Theorem execution_stops_or_returns (e : env) :
  (credential e = None /\ snd (streamlit_app e) = Stopped)
  \/ (is_Some (credential e) /\ snd (streamlit_app e) = Returned tt).
Proof.
  by_app_cases e; simpl snd.
  - by left.
  - right. by rewrite Hc.
  - right. by rewrite Hc.
  - right. destruct Hs as (-> & _). done.
Qed.

(** X2.  An execution sends at most one request.  A request that is sent
    names the model gpt-3.5-turbo, asks for a stream, is signed with the
    usable credential of the secrets store, taken as it is, and carries the
    messages built from the decoded document and the question. *)
Theorem request_shape (e : env) (r : request) :
  In r (sent e) ->
  sent e = [r] /\
  model r = lit "gpt-3.5-turbo" /\
  stream_flag r = true /\
  credential e = Some (api_key r) /\
  truthy (api_key r) = true /\
  exists d, document_of e = Some d /\
            request_messages r = messages d (question_text e).
Proof.
  rewrite sent_spec. unfold document_of.
  destruct (credential e) as [key|]; [|done].
  destruct (uploaded e) as [file|]; [|done].
  destruct (truthy key) eqn:Hk; [|done].
  destruct (str_truthy (question_text e)); [|done].
  destruct (decode (read file)) as [ex|d]; [done|]. simpl.
  intros [<- | []]. repeat split; try done. by exists d.
Qed.

Lemma request_shape_witness :
  sent sky_env
  = [completion_request (VStr (lit "sk-test")) (lit "The sky is blue.")
       (lit "What color is the sky?")] /\
  model (completion_request (VStr (lit "sk-test")) (lit "The sky is blue.")
           (lit "What color is the sky?")) = lit "gpt-3.5-turbo" /\
  stream_flag (completion_request (VStr (lit "sk-test")) (lit "The sky is blue.")
                 (lit "What color is the sky?")) = true /\
  credential sky_env
  = Some (api_key (completion_request (VStr (lit "sk-test")) (lit "The sky is blue.")
                     (lit "What color is the sky?"))) /\
  truthy (api_key (completion_request (VStr (lit "sk-test")) (lit "The sky is blue.")
                     (lit "What color is the sky?"))) = true /\
  exists d, document_of sky_env = Some d /\
            request_messages (completion_request (VStr (lit "sk-test"))
                                (lit "The sky is blue.") (lit "What color is the sky?"))
            = messages d (question_text sky_env).
Proof.
  apply (request_shape sky_env). vm_compute. by left.
Defined.

(** X3.  The calls of [create] that an execution makes do not depend on how
    the remote service behaves: with any other behaviour of the service the
    script makes the same calls, with the same arguments.  After a refusal or
    an interrupted stream the script itself makes no further call; attempts
    that the client library repeats inside one call lie outside the log. *)
Theorem requests_ignore_service (e : env) (sv : request -> response) :
  sent (with_service e sv) = sent e.
Proof. by rewrite !sent_spec. Qed.

(** X4.  A session sends at most one request per execution of the script. *)
Theorem session_requests_bounded (es : list env) :
  length (session_sent es) <= length es.
Proof.
  unfold session_sent. induction es as [|e es IH]; simpl; [done|].
  rewrite length_app.
  assert (length (sent e) <= 1); [|lia].
  rewrite sent_spec.
  destruct (credential e), (uploaded e) as [file|]; simpl; try lia.
  destruct (_ && _); simpl; [|lia].
  destruct (decode (read file)); simpl; lia.
Qed.

(** X5.  The client is constructed once, with the credential, in every
    execution that finds a usable credential, also when nothing is
    submitted; without a usable credential none is constructed. *)
Theorem client_constructed_iff_usable (e : env) :
  clients_of (fst (streamlit_app e))
  = match credential e with
    | Some key => if truthy key then [key] else []
    | None => []
    end.
Proof.
  unfold clients_of. by_app_cases e; simpl fst.
  - by rewrite Hc.
  - by rewrite Hc, Hk.
  - rewrite Hc, Hk. reflexivity.
  - destruct Hs as (-> & -> & _ & _).
    destruct (decode (read file)) as [ex|d]; [done|]. cbv zeta.
    destruct (service e _) as [ex|s]; [done|]. simpl.
    rewrite flat_map_app, flat_map_fragments_nil by done.
    by destruct (failure s).
Qed.

Lemma spinner_of_fragments (fs : list str) (shown : option str) :
  fold_left spinner_step (delivered fs) shown = shown.
Proof. revert shown. induction fs as [|f fs IH]; intros shown; simpl; [done|apply IH]. Qed.

(** X6.  No execution leaves the progress indicator on: every log ends with
    the indicator down, also when the request or the stream fails.  The
    indicator is shown once for each request sent and never otherwise. *)
Theorem spinner_tracks_request (e : env) :
  spinner_of (fst (streamlit_app e)) = None /\
  spinners_of (fst (streamlit_app e))
  = map (fun _ => lit "Generating answer...") (sent e).
Proof.
  unfold sent, spinner_of, spinners_of, requests_of.
  by_app_cases e; simpl fst; try done.
  destruct (decode (read file)) as [ex|d]; [done|]. cbv zeta.
  destruct (service e _) as [ex|s]; [done|]. simpl.
  rewrite fold_left_app, spinner_of_fragments.
  rewrite !flat_map_app, !flat_map_fragments_nil by done.
  by destruct (failure s).
Qed.

(** X7.  In a submission the page is free of error messages exactly when the
    document decodes, the service opens a stream and the stream closes
    without failure. *)
Theorem no_error_iff_success (e : env) (key : value) (file : UploadedFile) :
  submits e key file ->
  errors_of (page e) = [] <->
  exists d s,
    decode (read file) = inr d /\
    service e (completion_request key d (question_text e)) = Streams s /\
    failure s = None.
Proof.
  intros Hs. unfold page.
  rewrite (app_submission e key file Hs), errors_of_screen. simpl fst.
  destruct (decode (read file)) as [ex|d].
  { split; [done|]. by intros (d & s & ? & _). }
  cbv zeta. destruct (service e _) as [ex|s] eqn:Hr.
  { split; [done|]. intros (d' & s & Hd & Hr' & _).
    injection Hd as <-. by rewrite Hr in Hr'. }
  simpl. rewrite flat_map_app, flat_map_fragments_nil by done.
  destruct (failure s) as [ex|] eqn:Hf; simpl.
  - split; [done|]. intros (d' & s' & Hd & Hr' & Hf').
    injection Hd as <-. rewrite Hr in Hr'. injection Hr' as <-. by rewrite Hf in Hf'.
  - split; [|done]. intros _. by exists d, s.
Qed.

Lemma no_error_iff_success_witness :
  errors_of (page sky_env) = [] <->
  exists d s,
    decode (read {| data := list_byte_of_string "The sky is blue."; position := 0 |})
    = inr d /\
    service sky_env (completion_request (VStr (lit "sk-test")) d (question_text sky_env))
    = Streams s /\
    failure s = None.
Proof.
  apply (no_error_iff_success sky_env (VStr (lit "sk-test"))
           {| data := list_byte_of_string "The sky is blue."; position := 0 |}).
  repeat split; discriminate.
Defined.

(** X8.  No page holds more than one error message: the configuration error
    and the error of a request exclude each other, and a request reports at
    most one exception. *)
Theorem at_most_one_error (e : env) : length (errors_of (page e)) <= 1.
Proof.
  unfold page. rewrite errors_of_screen.
  by_app_cases e; simpl fst; try (simpl; lia).
  destruct (decode (read file)) as [ex|d]; [simpl; lia|]. cbv zeta.
  destruct (service e _) as [ex|s]; [simpl; lia|]. simpl.
  rewrite flat_map_app, flat_map_fragments_nil by done.
  destruct (failure s); simpl; lia.
Qed.

(** *** The prompt, continued *)

Lemma messages_boundary (D Q : str) :
  messages D Q
  = [ {| role := lit "user";
         content :=
           lit "You are an expert at answering questions based on a provided document.\n\nHere is the document:\n\n---\n\n"
           ++ D ++ boundary ++ Q |} ].
Proof.
  unfold messages, boundary. do 2 f_equal. rewrite <- !app_assoc. reflexivity.
Qed.

Lemma messages_eq_inv (D Q D' Q' : str) :
  messages D Q = messages D' Q' -> D ++ boundary ++ Q = D' ++ boundary ++ Q'.
Proof.
  rewrite !messages_boundary.
  match goal with |- context [?p ++ D ++ _] => generalize p end.
  intros p H.
  apply (f_equal (fun l => match l with m :: _ => content m | [] => [] end)) in H.
  cbn [content] in H. by apply app_inv_head in H.
Qed.

(** X9.  Document and question are joined without escaping, so the place
    where the document ends is not marked: a document that contains the text
    put before the question yields the very prompt of a shorter document
    with a longer question. *)
Theorem prompt_boundary_is_not_protected (A B C : str) :
  messages (A ++ boundary ++ B) C = messages A (B ++ boundary ++ C).
Proof. rewrite !messages_boundary. by rewrite <- !app_assoc. Qed.

(** X10.  For a fixed document, different questions give different
    prompts. *)
Theorem prompt_separates_questions (D Q Q' : str) :
  Q <> Q' -> messages D Q <> messages D Q'.
Proof.
  intros Hne Heq. apply Hne. apply messages_eq_inv in Heq.
  rewrite !app_assoc in Heq. by apply app_inv_head in Heq.
Qed.

Lemma prompt_separates_questions_witness :
  messages (lit "The sky is blue.") (lit "What color is the sky?")
  <> messages (lit "The sky is blue.") (lit "Is the sky green?").
Proof.
  apply (prompt_separates_questions (lit "The sky is blue.")
           (lit "What color is the sky?") (lit "Is the sky green?")).
  discriminate.
Defined.

(** X11.  For a fixed question, different documents give different
    prompts. *)
Theorem prompt_separates_documents (D D' Q : str) :
  D <> D' -> messages D Q <> messages D' Q.
Proof.
  intros Hne Heq. apply Hne. apply messages_eq_inv in Heq.
  rewrite !app_assoc in Heq. apply app_inv_tail in Heq. by apply app_inv_tail in Heq.
Qed.

Lemma prompt_separates_documents_witness :
  messages (lit "The sky is blue.") (lit "What color is the sky?")
  <> messages (lit "The sky is grey.") (lit "What color is the sky?").
Proof.
  apply (prompt_separates_documents (lit "The sky is blue.") (lit "The sky is grey.")
           (lit "What color is the sky?")).
  discriminate.
Defined.

(** *** The page, continued *)

Lemma paint_keeps_base (base : list element) (t : list event) (above : list element) :
  (above = [] -> forall s below, base <> Output s :: below) ->
  exists above', fold_left paint t (above ++ base) = above' ++ base.
Proof.
  revert above. induction t as [|ev t IH]; intros above Hb; simpl.
  { by exists above. }
  destruct ev as [el| | |f| | |]; simpl; try by apply IH.
  - apply (IH (el :: above)). done.
  - destruct above as [|a above]; simpl.
    + destruct base as [|b base]; [apply (IH [Output f]); done|].
      destruct b; try (apply (IH [Output f]); done).
      by destruct (Hb eq_refl text base).
    + destruct a; try (apply (IH (Output f :: _ :: above)); done).
      apply (IH (Output (text ++ f) :: above)). done.
Qed.

(** X12.  Title and description are drawn before the secrets store is read:
    every page begins with them, whatever the credential, the inputs and the
    answer of the service. *)
Theorem page_begins_with_heading (e : env) :
  exists rest,
    page e
    = Title (page_facing_up ++ lit " Document Question Answering")
      :: Markdown (lit "Upload a document (.txt or .md) and ask a question. The app will use an AI model to find the answer within the document. You'll need an OpenAI API key to use this app. You can get one from the [OpenAI Platform](https://platform.openai.com/account/api-keys).")
      :: rest.
Proof.
  assert (H : exists t, fst (streamlit_app e) = heading ++ t).
  { by_app_cases e; simpl fst; eexists; reflexivity. }
  destruct H as [t Ht]. unfold page, screen_of. rewrite Ht, fold_left_app.
  destruct (paint_keeps_base (fold_left paint heading []) t []) as [above Ha]; [done|].
  rewrite app_nil_l in Ha. rewrite Ha, rev_app_distr. by exists (rev above).
Qed.

(** X13.  The output region shows text only in an execution that sent a
    request. *)
Theorem output_needs_request (e : env) :
  rendered (page e) <> [] -> exists r, sent e = [r].
Proof.
  unfold page. rewrite rendered_screen_of.
  destruct (app_cases e)
    as [Hc | [(key & Hc & Hk) | [(key & Hc & Hk & Hi) | (key & file & Hs)]]].
  - by rewrite (app_without_credential e Hc).
  - by rewrite (app_with_empty_credential e key Hc Hk).
  - by rewrite (app_idle e key Hc Hk Hi).
  - rewrite (sent_submission e key file Hs), (app_submission e key file Hs).
    simpl fst. destruct (decode (read file)) as [ex|d]; [done|].
    intros _. by eexists.
Qed.

Lemma output_needs_request_witness : exists r, sent sky_env = [r].
Proof. apply (output_needs_request sky_env). vm_compute. discriminate. Defined.

(** X14.  When the service refuses the request, the request has been sent
    once, no output region is opened, and the page ends with the error
    message. *)
Theorem refused_request_leaves_no_output
    (e : env) (key : value) (file : UploadedFile) (d : str) (ex : exn) :
  submits e key file ->
  decode (read file) = inr d ->
  service e (completion_request key d (question_text e)) = CreateFails ex ->
  sent e = [completion_request key d (question_text e)] /\
  rendered (page e) = [] /\
  page e = screen_of (heading ++ inputs key (Some file)) ++ [request_error ex].
Proof.
  intros Hs Hd Hr. split; [by rewrite (sent_submission e key file Hs), Hd|].
  unfold page. rewrite rendered_screen_of, (app_submission e key file Hs), Hd.
  cbv zeta. rewrite Hr. simpl fst. split; reflexivity.
Qed.

Lemma refused_request_leaves_no_output_witness :
  sent refused_env
  = [completion_request (VStr (lit "sk-test")) (lit "The sky is blue.")
       (question_text refused_env)] /\
  rendered (page refused_env) = [] /\
  page refused_env
  = screen_of (heading ++ inputs (VStr (lit "sk-test"))
                 (Some {| data := list_byte_of_string "The sky is blue."; position := 0 |}))
      ++ [request_error (APIError (lit "Incorrect API key provided"))].
Proof.
  apply (refused_request_leaves_no_output refused_env (VStr (lit "sk-test"))
           {| data := list_byte_of_string "The sky is blue."; position := 0 |});
    try reflexivity; repeat split; discriminate.
Defined.

(** *** Decoding, continued *)

Lemma utf8_decode_ascii (object : bytes) (l : list N) (pos : nat) :
  Forall (fun n => (n < 128)%N) l -> utf8_decode object pos l = inr l.
Proof.
  intros H. revert pos. induction H as [|ch s1 Hch _ IH]; intros pos; [done|].
  simpl. apply N.ltb_lt in Hch. by rewrite Hch, IH.
Qed.

Ltac bool_facts :=
  repeat match goal with
    | H : (_ <? _)%N = true |- _ => apply N.ltb_lt in H
    | H : (_ <? _)%N = false |- _ => apply N.ltb_ge in H
    | H : (_ =? _)%N = true |- _ => apply N.eqb_eq in H
    | H : (_ =? _)%N = false |- _ => apply N.eqb_neq in H
    | H : (_ <=? _)%N = true |- _ => apply N.leb_le in H
    | H : (_ <=? _)%N = false |- _ => apply N.leb_gt in H
    | H : negb _ = false |- _ => apply negb_false_iff in H
    | H : negb _ = true |- _ => apply negb_true_iff in H
    | H : _ || _ = false |- _ => apply orb_false_iff in H; destruct H
    | H : _ && _ = true |- _ => apply andb_true_iff in H; destruct H
    end.

Lemma utf8_decode_rejects (object : bytes) (n : nat) :
  forall (l : list N) (pos : nat),
    length l <= n -> Exists never_utf8 l ->
    exists ex, utf8_decode object pos l = inl ex.
Proof.
  induction n as [|n IH]; intros l pos Hl Hex.
  { destruct l; [inversion Hex|simpl in Hl; lia]. }
  destruct l as [|ch s1]; [inversion Hex|].
  simpl utf8_decode.
  repeat match goal with
    | |- context [if ?c then _ else _] => destruct c eqn:?
    | |- context [match ?s with [] => _ | _ :: _ => _ end] => destruct s
    end;
    try (eexists; reflexivity);
    match goal with
    | |- exists ex, cons_ok _ (utf8_decode _ ?p ?s') = inl ex =>
        let Hs := fresh in
        assert (Hs : Exists never_utf8 s');
        [ rewrite ?Exists_cons in Hex; unfold never_utf8, is_continuation in *;
          bool_facts; intuition lia
        | destruct (IH s' p) as [ex ->]; [simpl in Hl; lia|exact Hs|];
          eexists; reflexivity ]
    end.
Qed.

(** X15.  A file of ASCII bytes always decodes, to the same characters: in a
    submission the request is sent and its prompt carries the bytes of the
    file as they are. *)
Theorem ascii_document_is_sent_as_is (e : env) (key : value) (file : UploadedFile) :
  submits e key file ->
  Forall is_ascii (read file) ->
  document_of e = Some (map Byte.to_N (read file)) /\
  sent e = [completion_request key (map Byte.to_N (read file)) (question_text e)].
Proof.
  intros Hs Ha.
  assert (Hd : decode (read file) = inr (map Byte.to_N (read file))).
  { unfold decode. apply utf8_decode_ascii. by apply Forall_map. }
  split.
  - unfold document_of. destruct Hs as (_ & _ & -> & _). by rewrite Hd.
  - by rewrite (sent_submission e key file Hs), Hd.
Qed.

Lemma ascii_document_is_sent_as_is_witness :
  document_of sky_env
  = Some (map Byte.to_N
            (read {| data := list_byte_of_string "The sky is blue."; position := 0 |})) /\
  sent sky_env
  = [completion_request (VStr (lit "sk-test"))
       (map Byte.to_N
          (read {| data := list_byte_of_string "The sky is blue."; position := 0 |}))
       (question_text sky_env)].
Proof.
  apply (ascii_document_is_sent_as_is sky_env (VStr (lit "sk-test"))
           {| data := list_byte_of_string "The sky is blue."; position := 0 |}).
  - repeat split; discriminate.
  - unfold is_ascii. repeat constructor.
Defined.

(** X16.  A file that holds, anywhere, one of the bytes 0xC0, 0xC1 or 0xF5 to
    0xFF (as every UTF-16 file with a byte order mark does) never decodes: a
    submission of it sends no request and ends with one error message. *)
Theorem foreign_byte_blocks_request
    (e : env) (key : value) (file : UploadedFile) (b : byte) :
  submits e key file ->
  In b (read file) ->
  never_utf8 (Byte.to_N b) ->
  sent e = [] /\
  exists ex,
    decode (read file) = inl ex /\
    errors_of (page e) = [(lit "An error occurred: " ++ str_exn ex, rotating_light)].
Proof.
  intros Hs Hin Hb.
  destruct (utf8_decode_rejects (read file) (length (read file))
              (map Byte.to_N (read file)) 0) as [ex Hd].
  { by rewrite length_map. }
  { apply Exists_exists. exists (Byte.to_N b). split; [|done].
    apply list_elem_of_In. by apply in_map. }
  fold (decode (read file)) in Hd. split.
  - by rewrite (sent_submission e key file Hs), Hd.
  - exists ex. split; [done|].
    unfold page. by rewrite (app_submission e key file Hs), Hd.
Qed.

Lemma foreign_byte_blocks_request_witness :
  sent utf16_env = [] /\
  exists ex,
    decode (read {| data := [xff; xfe; x48; x00; x69; x00]; position := 0 |}) = inl ex /\
    errors_of (page utf16_env)
    = [(lit "An error occurred: " ++ str_exn ex, rotating_light)].
Proof.
  apply (foreign_byte_blocks_request utf16_env (VStr (lit "sk-test"))
           {| data := [xff; xfe; x48; x00; x69; x00]; position := 0 |} xff).
  - repeat split; discriminate.
  - by left.
  - unfold never_utf8. vm_compute. right. right. discriminate.
Defined.

(** The message for the UTF-16 file. *)
Example utf16_message :
  errors_of (page utf16_env)
  = [(lit "An error occurred: 'utf-8' codec can't decode byte 0xff in position 0: invalid start byte",
      rotating_light)].
Proof. reflexivity. Qed.
